(** * app/auth/redis.py: the token blacklist and its in-memory fallback

    A shallow embedding of the module [app/auth/redis.py].  The module keeps
    the JTIs of revoked tokens in a redis-like store under the key
    ["blacklist:" ++ jti], written with an expiry ([set ... ex=exp]) and read
    back with [exists].  When [redis.asyncio] cannot be imported the module
    defines its own store, the class [_InMemoryRedis], and uses that.

    Conventions of the model.
    - [time.time()] is a field of the world, read by the code and moved only
      by an explicit clock step; timestamps are exact rationals ([Qc]), so the
      rounding of the double addition [time.time() + ex] is not modelled.
    - Coroutines are run to completion one after another.  No method of
      [_InMemoryRedis] awaits anything between taking and releasing
      [self._lock], so the lock has no effect on a sequential run and is
      left out of the object's state.
    - Objects live in a heap and are passed by reference, as in Python:
      [get_redis.redis] and the local variable [redis] of the two blacklist
      functions are references to the same heap cell. *)

From Stdlib Require Import ZArith QArith Qcanon.
From stdpp Require Import base numbers option list strings gmap fin_maps.

Local Open Scope string_scope.

(** ** Python values used by the module *)

(** Exceptions.  The first three are what the redis client raises;
    [AttributeError] is Python's answer to reading an attribute that was
    never assigned; [InvalidReference] is the model's own answer to a method
    call through a reference that names no heap cell.  No run of the module
    produces either of the last two (see [run_shape] and [run_in_memory]). *)
Inductive exn : Type :=
  | ConnectionError
  | TimeoutError
  | ResponseError
  | AttributeError
  | InvalidReference.

Module Py.

(** Truth value of a [str]: only the empty string is falsy. *)
Definition truthy_str (s : string) : bool :=
  if decide (s = "") then false else true.

(** [a or b] where [a : Optional[str]] and [b : str]. *)
Definition or_str (a : option string) (b : string) : string :=
  match a with
  | Some s => if truthy_str s then s else b
  | None => b
  end.

(** [bool(n)] for an [int]. *)
Definition bool_of_int (n : Z) : bool := negb (n =? 0)%Z.

(** [f"blacklist:{jti}"] for a [str] argument. *)
Definition blacklist_key (jti : string) : string := "blacklist:" ++ jti.

End Py.

(** ** The class [_InMemoryRedis] *)

Module InMemoryRedis.

(** [self._data : dict[str, tuple[str, Optional[float]]]]. *)
Record t : Type := Build { _data : gmap string (string * option Qc) }.

(** [__init__]: an empty dict (and a fresh lock). *)
Definition __init__ : t := {| _data := ∅ |}.

(** [expire = time.time() + ex if ex is not None else None]. *)
Definition expire_of (now : Qc) (ex : option Z) : option Qc :=
  match ex with
  | Some e => Some (now + Qc_of_Z e)%Qc
  | None => None
  end.

(** [set(key, value, ex)]: [self._data[key] = (value, expire)]. *)
Definition set (now : Qc) (key value : string) (ex : option Z) (self : t) : t :=
  let expire := expire_of now ex in
  {| _data := <[key := (value, expire)]> (_data self) |}.

(** [time.time() > expire]. *)
Definition expired (now expire : Qc) : bool := bool_decide (expire < now)%Qc.

(** [exists(key)].  [item] is [None] or a 2-tuple, and a 2-tuple is never
    falsy, so [if not item] is exactly the test for a missing key. *)
Definition exists_ (now : Qc) (key : string) (self : t) : Z * t :=
  match _data self !! key with
  | None => (0%Z, self)
  | Some (_, expire) =>
      match expire with
      | Some e =>
          if expired now e
          then (0%Z, {| _data := delete key (_data self) |})
          else (1%Z, self)
      | None => (1%Z, self)
      end
  end.

End InMemoryRedis.

(** ** The optional dependency [redis.asyncio]

    Its code is not part of the module; it is a parameter of the model.  [R]
    is the state of whatever stands behind the client (the server, the
    network).  A client object carries its two methods. *)
Record Client (R : Type) : Type := {
  client_set : string → string → option Z → R → (exn + ()) * R;
  client_exists : string → R → (exn + Z) * R
}.
Arguments client_set {R} _ _ _ _ _.
Arguments client_exists {R} _ _ _.

Record RedisAsyncio (R : Type) : Type := {
  from_url : string → R → (exn + Client R) * R
}.
Arguments from_url {R} _ _ _.

(** ** The module *)

(** The value behind a reference: an [_InMemoryRedis] or a redis client. *)
Inductive obj (R : Type) : Type :=
  | InMem (s : InMemoryRedis.t)
  | Remote (c : Client R).
Arguments InMem {R} s.
Arguments Remote {R} c.

(** Everything the module reads and writes. *)
Record World (R : Type) : Type := {
  clock : Qc;                     (* what [time.time()] returns *)
  heap : list (obj R);            (* a reference is a position in the heap *)
  get_redis_redis : option nat;   (* the attribute [get_redis.redis] *)
  remote : R
}.
Arguments clock {R} _.
Arguments heap {R} _.
Arguments get_redis_redis {R} _.
Arguments remote {R} _.

Section Module.
Context {R : Type}.

(** [Some lib] when [import redis.asyncio] succeeded, [None] when it raised
    (the [except Exception] branch). *)
Variable redis_asyncio : option (RedisAsyncio R).

(** [settings.REDIS_URL]. *)
Variable REDIS_URL : option string.

(** A computation of the module: reads and writes the world, returns a
    value or raises. *)
Definition M (A : Type) : Type := World R → (exn + A) * World R.

Definition ret {A} (a : A) : M A := λ w, (inr a, w).
Definition raise {A} (e : exn) : M A := λ w, (inl e, w).
Definition bind {A B} (m : M A) (k : A → M B) : M B := λ w,
  match m w with
  | (inr a, w') => k a w'
  | (inl e, w') => (inl e, w')
  end.

#[local] Instance M_ret : MRet M := @ret.
#[local] Instance M_bind : MBind M := λ A B k m, bind m k.

Definition with_heap (h : list (obj R)) (w : World R) : World R :=
  {| clock := clock w; heap := h;
     get_redis_redis := get_redis_redis w; remote := remote w |}.
Definition with_attr (a : option nat) (w : World R) : World R :=
  {| clock := clock w; heap := heap w;
     get_redis_redis := a; remote := remote w |}.
Definition with_remote (r : R) (w : World R) : World R :=
  {| clock := clock w; heap := heap w;
     get_redis_redis := get_redis_redis w; remote := r |}.
Definition with_clock (t : Qc) (w : World R) : World R :=
  {| clock := t; heap := heap w;
     get_redis_redis := get_redis_redis w; remote := remote w |}.

(** Object creation: a new heap cell, whose reference is returned. *)
Definition alloc (o : obj R) : M nat := λ w,
  (inr (length (heap w)), with_heap (heap w ++ [o]) w).

(** A call into the library: it acts on the remote state only. *)
Definition foreign {A} (f : R → (exn + A) * R) : M A := λ w,
  let '(res, r) := f (remote w) in (res, with_remote r w).

Definition _HAS_REAL_REDIS : bool :=
  match redis_asyncio with Some _ => true | None => false end.

(** The two definitions of [_create_redis]: the one of the [try] body and
    the one of the [except] branch. *)
Definition _create_redis (url : option string) : M nat :=
  match redis_asyncio with
  | Some lib =>
      c ← foreign (from_url lib (Py.or_str url "redis://localhost"));
      alloc (Remote c)
  | None =>
      (* [_InMemoryRedis.from_url(url)] is [cls()] *)
      alloc (InMem InMemoryRedis.__init__)
  end.

(** The attribute [get_redis.redis]: [hasattr], assignment, and the read,
    which raises [AttributeError] when the attribute is not set. *)
Definition hasattr_redis : M bool := λ w,
  (inr (bool_decide (is_Some (get_redis_redis w))), w).
Definition setattr_redis (r : nat) : M () := λ w,
  (inr (), with_attr (Some r) w).
Definition getattr_redis : M nat := λ w,
  match get_redis_redis w with
  | Some r => (inr r, w)
  | None => (inl AttributeError, w)
  end.

Definition get_redis : M nat :=
  has ← hasattr_redis;
  (if negb has
   then r ← _create_redis (Some (Py.or_str REDIS_URL "redis://localhost"));
        setattr_redis r
   else mret ());;
  getattr_redis.

(** [await redis.set(key, value, ex=ex)], dispatched on the object. *)
Definition redis_set (r : nat) (key value : string) (ex : option Z) : M () :=
  λ w,
  match heap w !! r with
  | Some (InMem s) =>
      (inr (), with_heap
                 (<[r := InMem (InMemoryRedis.set (clock w) key value ex s)]>
                    (heap w)) w)
  | Some (Remote c) => foreign (client_set c key value ex) w
  | None => (inl InvalidReference, w)
  end.

(** [await redis.exists(key)], dispatched on the object. *)
Definition redis_exists (r : nat) (key : string) : M Z := λ w,
  match heap w !! r with
  | Some (InMem s) =>
      let '(n, s') := InMemoryRedis.exists_ (clock w) key s in
      (inr n, with_heap (<[r := InMem s']> (heap w)) w)
  | Some (Remote c) => foreign (client_exists c key) w
  | None => (inl InvalidReference, w)
  end.

Definition add_to_blacklist (jti : string) (exp : Z) : M () :=
  redis ← get_redis;
  redis_set redis (Py.blacklist_key jti) "1" (Some exp).

Definition is_blacklisted (jti : string) : M bool :=
  redis ← get_redis;
  exists_ ← redis_exists redis (Py.blacklist_key jti);
  mret (Py.bool_of_int exists_).

(** *** Runs of the module *)

(** What a process does with the module: the three entry points, and time
    passing between calls. *)
Inductive call : Type :=
  | MarkRevoked (jti : string) (exp : Z)
  | IsRevoked (jti : string)
  | GetStore
  | Elapse (d : Qc).

Definition elapse (d : Qc) (w : World R) : World R :=
  with_clock (clock w + d)%Qc w.

Definition step (w : World R) (c : call) : World R :=
  match c with
  | MarkRevoked jti exp => snd (add_to_blacklist jti exp w)
  | IsRevoked jti => snd (is_blacklisted jti w)
  | GetStore => snd (get_redis w)
  | Elapse d => elapse d w
  end.

Definition run (cs : list call) (w : World R) : World R := foldl step w cs.

(** The world right after the module has been imported. *)
Definition boot (t0 : Qc) (r0 : R) : World R :=
  {| clock := t0; heap := []; get_redis_redis := None; remote := r0 |}.

(** The table of the cached store, when a store is cached and lives in
    memory, and the entry it holds for a token. *)
Definition table (w : World R) : option (gmap string (string * option Qc)) :=
  r ← get_redis_redis w;
  match heap w !! r with
  | Some (InMem s) => Some (InMemoryRedis._data s)
  | _ => None
  end.

Definition entry (w : World R) (jti : string) : option (string * option Qc) :=
  T ← table w; T !! Py.blacklist_key jti.

(** An entry whose expiry lies in the past: [time.time() > expire]. *)
Definition stale (w : World R) (jti : string) : bool :=
  match entry w jti with
  | Some (_, Some e) => InMemoryRedis.expired (clock w) e
  | _ => false
  end.

(** No call of the run marks [jti]. *)
Definition marks (jti : string) (c : call) : bool :=
  match c with
  | MarkRevoked j _ => bool_decide (j = jti)
  | _ => false
  end.
Definition never_marked (jti : string) (cs : list call) : bool :=
  forallb (λ c, negb (marks jti c)) cs.


(** *** Shapes of the world

    The heap is empty until [get_redis.redis] is set, and holds exactly the
    cached object afterwards. *)
Definition heap_shape (w : World R) : Prop :=
  match get_redis_redis w with
  | None => heap w = []
  | Some r => r = 0 ∧ length (heap w) = 1
  end.

(** The same, when the cached object is an [_InMemoryRedis]. *)
Definition in_memory (w : World R) : Prop :=
  match get_redis_redis w with
  | None => heap w = []
  | Some r => r = 0 ∧ ∃ s, heap w = [InMem s]
  end.

(** The store the next call works on: the cached one, or the empty one
    that [get_redis] is about to create. *)
Definition store_of (w : World R) : InMemoryRedis.t :=
  {| InMemoryRedis._data := default ∅ (table w) |}.

(** The world once the store is cached and holds [s]. *)
Definition settled (s : InMemoryRedis.t) (w : World R) : World R :=
  {| clock := clock w; heap := [InMem s];
     get_redis_redis := Some 0; remote := remote w |}.

End Module.

(** ** Concrete worlds *)

(** The scenario of the documentation: the import of [redis.asyncio] failed,
    no [REDIS_URL], and the process starts at [epoch]. *)
Definition epoch : Qc := Qc_of_Z 1700000000.
Definition fresh : World () := boot epoch ().


(** A [redis.asyncio] whose server is there: [set] succeeds and [exists]
    counts two keys, whatever is asked. *)
Definition answering : Client () :=
  {| client_set := λ _ _ _ r, (inr (), r);
     client_exists := λ _ r, (inr 2%Z, r) |}.
Definition serving : RedisAsyncio () :=
  {| from_url := λ _ r, (inr answering, r) |}.

(** ** Measures of a run *)


(** Every object of the heap is a client of the library. *)
Definition clients_only {R : Type} (w : World R) : Prop :=
  Forall (λ o, match o with Remote _ => True | InMem _ => False end) (heap w).

(** What the module writes into the table: the value ["1"], an expiry, under
    a key of the blacklist. *)
Definition blacklist_item (k : string) (item : string * option Qc) : Prop :=
  item.1 = "1" ∧ is_Some item.2 ∧ ∃ jti, k = Py.blacklist_key jti.

(** Unfolding one layer of the monad. *)
Ltac unfold_M :=
  cbn; unfold mbind, mret, M_bind, M_ret, bind, ret; cbn.


(** * Facts *)

(** ** Keys and timestamps *)

Lemma blacklist_key_inj (x y : string) :
  Py.blacklist_key x = Py.blacklist_key y → x = y.
Proof. unfold Py.blacklist_key. cbn. intros H. by simplify_eq. Qed.


Lemma expired_shift (now d e : Qc) :
  InMemoryRedis.expired (now + d) (now + e) = bool_decide (e < d)%Qc.
Proof.
  unfold InMemoryRedis.expired. apply bool_decide_ext.
  symmetry. apply Qcplus_lt_mono_l.
Qed.

Lemma expired_at_write (now e : Qc) :
  InMemoryRedis.expired now (now + e) = bool_decide (e < 0)%Qc.
Proof.
  rewrite <-(Qcplus_0_r now) at 1. apply expired_shift.
Qed.

(** ** The store *)

Module InMemoryRedisFacts.
Import InMemoryRedis.

Lemma lookup_set now key value ex self :
  _data (set now key value ex self) !! key = Some (value, expire_of now ex).
Proof. cbn. apply lookup_insert_eq. Qed.

Lemma lookup_set_ne now key key' value ex self :
  key ≠ key' → _data (set now key value ex self) !! key' = _data self !! key'.
Proof. intros. cbn. by apply lookup_insert_ne. Qed.

(** What [exists] returns and what it leaves, by the entry it finds. *)
Lemma exists_missing now key self :
  _data self !! key = None → exists_ now key self = (0%Z, self).
Proof. unfold exists_. by intros ->. Qed.

Lemma exists_forever now key v self :
  _data self !! key = Some (v, None) → exists_ now key self = (1%Z, self).
Proof. unfold exists_. by intros ->. Qed.

Lemma exists_live now key v e self :
  _data self !! key = Some (v, Some e) → expired now e = false →
  exists_ now key self = (1%Z, self).
Proof. unfold exists_. by intros -> ->. Qed.

Lemma exists_expired now key v e self :
  _data self !! key = Some (v, Some e) → expired now e = true →
  exists_ now key self = (0%Z, {| _data := delete key (_data self) |}).
Proof. unfold exists_. by intros -> ->. Qed.

Lemma lookup_exists_ne now key key' self :
  key ≠ key' → _data (exists_ now key self).2 !! key' = _data self !! key'.
Proof.
  intros Hne. unfold exists_.
  destruct (_data self !! key) as [[v [e|]]|]; [|done..].
  destruct (expired now e); [|done]. cbn. by apply lookup_delete_ne.
Qed.

(** [exists] never adds an entry. *)
Lemma lookup_exists_None now key key' self :
  _data self !! key' = None → _data (exists_ now key self).2 !! key' = None.
Proof.
  intros Hk. unfold exists_.
  destruct (_data self !! key) as [[v [e|]]|]; [|done..].
  destruct (expired now e); [|done]. cbn.
  rewrite lookup_delete. by case_decide.
Qed.

End InMemoryRedisFacts.

(** ** The shape of the heap

    Whatever was imported, the module creates an object only in [get_redis]
    and only while [get_redis.redis] is unset: the heap is empty until the
    attribute is set, and holds exactly the cached object afterwards. *)

Section Shape.
Context {R : Type}.
Variable redis_asyncio : option (RedisAsyncio R).
Variable REDIS_URL : option string.
Implicit Types w : World R.

Lemma heap_shape_boot t0 (r0 : R) : heap_shape (boot t0 r0).
Proof. done. Qed.

Lemma get_redis_cached w r :
  get_redis_redis w = Some r →
  get_redis redis_asyncio REDIS_URL w = (inr r, w).
Proof.
  intros Hr. unfold get_redis, hasattr_redis, getattr_redis.
  unfold_M. rewrite Hr. cbn. by rewrite Hr.
Qed.

(** A successful [get_redis] leaves the attribute set to what it returns,
    and a failed one leaves it as it was. *)
Lemma get_redis_shape w :
  heap_shape w →
  match get_redis redis_asyncio REDIS_URL w with
  | (inr r, w') =>
      get_redis_redis w' = Some r ∧ heap_shape w' ∧ clock w' = clock w
  | (inl _, w') =>
      get_redis_redis w' = None ∧ heap_shape w' ∧ clock w' = clock w
  end.
Proof.
  intros Hw. destruct (get_redis_redis w) as [r|] eqn:Hr.
  { rewrite (get_redis_cached w r Hr). by rewrite Hr. }
  unfold heap_shape in Hw. rewrite Hr in Hw.
  unfold get_redis, hasattr_redis, getattr_redis, _create_redis.
  unfold_M. rewrite Hr. cbn.
  destruct redis_asyncio as [lib|]; unfold_M; unfold foreign, alloc; cbn.
  - destruct (from_url lib _ (remote w)) as [[e|c] r']; cbn.
    + unfold heap_shape. cbn. by rewrite Hr.
    + unfold heap_shape. cbn. by rewrite Hw.
  - unfold heap_shape. cbn. by rewrite Hw.
Qed.

Lemma heap_shape_insert w r o :
  heap_shape w → heap_shape (with_heap (<[r:=o]> (heap w)) w).
Proof.
  unfold heap_shape. cbn. destruct (get_redis_redis w).
  - by rewrite length_insert.
  - by intros ->.
Qed.

Lemma redis_set_shape r key value ex w :
  heap_shape w →
  let w' := (redis_set r key value ex w).2 in
  get_redis_redis w' = get_redis_redis w ∧ heap_shape w'.
Proof.
  intros Hw. unfold redis_set, foreign.
  destruct (heap w !! r) as [[s|c]|]; cbn; [| |done].
  - split; [done|]. by apply heap_shape_insert.
  - by destruct (client_set c key value ex (remote w)).
Qed.

Lemma redis_exists_shape r key w :
  heap_shape w →
  let w' := (redis_exists r key w).2 in
  get_redis_redis w' = get_redis_redis w ∧ heap_shape w'.
Proof.
  intros Hw. unfold redis_exists, foreign.
  destruct (heap w !! r) as [[s|c]|]; cbn; [| |done].
  - destruct (InMemoryRedis.exists_ (clock w) key s) as [n s']. cbn.
    split; [done|]. by apply heap_shape_insert.
  - by destruct (client_exists c key (remote w)).
Qed.

Lemma step_shape w c :
  heap_shape w → heap_shape (step redis_asyncio REDIS_URL w c).
Proof.
  intros Hw. pose proof (get_redis_shape w Hw) as Hg.
  destruct c as [x t|x| |d]; cbn.
  - unfold add_to_blacklist. unfold_M.
    destruct (get_redis _ _ w) as [[e|r] w']; [by destruct Hg as (_ & ? & _)|].
    destruct Hg as (_ & Hw' & _).
    by apply (redis_set_shape r _ _ _ w').
  - unfold is_blacklisted. unfold_M.
    destruct (get_redis _ _ w) as [[e|r] w']; [by destruct Hg as (_ & ? & _)|].
    destruct Hg as (_ & Hw' & _).
    pose proof (redis_exists_shape r (Py.blacklist_key x) w' Hw') as [_ H].
    by destruct (redis_exists r _ w') as [[?|?] ?].
  - by destruct (get_redis _ _ w) as [[e|r] w'], Hg as (_ & ? & _).
  - done.
Qed.

Lemma run_shape cs w :
  heap_shape w → heap_shape (run redis_asyncio REDIS_URL cs w).
Proof.
  revert w. induction cs as [|c cs IH]; intros w Hw; [done|].
  cbn. apply IH. by apply step_shape.
Qed.

(** Once the attribute is set no call unsets or changes it. *)
Lemma step_keeps_attr w c r :
  heap_shape w → get_redis_redis w = Some r →
  get_redis_redis (step redis_asyncio REDIS_URL w c) = Some r.
Proof.
  intros Hw Hr. destruct c as [x t|x| |d]; cbn.
  - unfold add_to_blacklist. unfold_M.
    rewrite (get_redis_cached w r Hr).
    by destruct (redis_set_shape r (Py.blacklist_key x) "1" (Some t) w Hw)
      as [-> _].
  - unfold is_blacklisted. unfold_M.
    rewrite (get_redis_cached w r Hr).
    pose proof (redis_exists_shape r (Py.blacklist_key x) w Hw) as [H _].
    destruct (redis_exists r _ w) as [[?|?] ?]; cbn in *; by rewrite H.
  - by rewrite (get_redis_cached w r Hr).
  - done.
Qed.

Lemma run_keeps_attr cs w r :
  heap_shape w → get_redis_redis w = Some r →
  get_redis_redis (run redis_asyncio REDIS_URL cs w) = Some r.
Proof.
  revert w. induction cs as [|c cs IH]; intros w Hw Hr; [done|].
  cbn. apply IH; [by apply step_shape | by apply step_keeps_attr].
Qed.

End Shape.

(** ** The module when [redis.asyncio] could not be imported

    Here [_create_redis] builds an [_InMemoryRedis], so the cached object is
    always one, and each entry point has a closed form in terms of the
    methods of the class. *)

Section Fallback.
Context {R : Type}.
Variable REDIS_URL : option string.
Implicit Types w : World R.

Lemma in_memory_boot t0 (r0 : R) : in_memory (boot t0 r0).
Proof. done. Qed.

Lemma in_memory_settled s w : in_memory (settled s w).
Proof. cbn. eauto. Qed.

Lemma store_of_settled s w : store_of (settled s w) = s.
Proof. by destruct s. Qed.

Lemma store_of_elapse d w : store_of (elapse d w) = store_of w.
Proof. done. Qed.

Lemma entry_store_of w jti :
  entry w jti = InMemoryRedis._data (store_of w) !! Py.blacklist_key jti.
Proof.
  unfold entry, store_of. cbn. by destruct (table w).
Qed.

Lemma get_redis_in_memory w :
  in_memory w →
  get_redis None REDIS_URL w = (inr 0, settled (store_of w) w).
Proof.
  unfold in_memory, store_of, table, settled, get_redis, hasattr_redis,
    getattr_redis, setattr_redis, _create_redis, alloc.
  destruct w as [t h [r|] rs]; unfold_M.
  - intros [-> [[T] ->]]. done.
  - intros ->. done.
Qed.

Lemma add_to_blacklist_in_memory w jti exp :
  in_memory w →
  add_to_blacklist None REDIS_URL jti exp w =
    (inr (), settled (InMemoryRedis.set (clock w) (Py.blacklist_key jti) "1"
                        (Some exp) (store_of w)) w).
Proof.
  intros Hw. unfold add_to_blacklist. unfold_M.
  by rewrite (get_redis_in_memory w Hw).
Qed.

Lemma is_blacklisted_in_memory w jti :
  in_memory w →
  let res := InMemoryRedis.exists_ (clock w) (Py.blacklist_key jti)
               (store_of w) in
  is_blacklisted None REDIS_URL jti w =
    (inr (Py.bool_of_int res.1), settled res.2 w).
Proof.
  intros Hw. unfold is_blacklisted. unfold_M.
  rewrite (get_redis_in_memory w Hw). unfold redis_exists. cbn.
  by destruct (InMemoryRedis.exists_ _ _ _).
Qed.

Lemma step_in_memory w c : in_memory w → in_memory (step None REDIS_URL w c).
Proof.
  intros Hw. destruct c as [x t|x| |d]; cbn.
  - rewrite add_to_blacklist_in_memory by done. apply in_memory_settled.
  - rewrite is_blacklisted_in_memory by done. apply in_memory_settled.
  - rewrite get_redis_in_memory by done. apply in_memory_settled.
  - done.
Qed.

Lemma run_in_memory cs w : in_memory w → in_memory (run None REDIS_URL cs w).
Proof.
  revert w. induction cs as [|c cs IH]; intros w Hw; [done|].
  cbn. apply IH. by apply step_in_memory.
Qed.

Lemma reachable_in_memory cs t0 (r0 : R) :
  in_memory (run None REDIS_URL cs (boot t0 r0)).
Proof. apply run_in_memory, in_memory_boot. Qed.

(** The store after one call. *)
Lemma store_of_step w c :
  in_memory w →
  store_of (step None REDIS_URL w c) =
    match c with
    | MarkRevoked jti exp =>
        InMemoryRedis.set (clock w) (Py.blacklist_key jti) "1" (Some exp)
          (store_of w)
    | IsRevoked jti =>
        (InMemoryRedis.exists_ (clock w) (Py.blacklist_key jti)
           (store_of w)).2
    | GetStore | Elapse _ => store_of w
    end.
Proof.
  intros Hw. destruct c as [x t|x| |d]; cbn.
  - rewrite add_to_blacklist_in_memory by done. apply store_of_settled.
  - rewrite is_blacklisted_in_memory by done. apply store_of_settled.
  - rewrite get_redis_in_memory by done. apply store_of_settled.
  - done.
Qed.

(** A key that no call of the run writes is absent from the store. *)
Lemma never_marked_absent jti cs w :
  in_memory w →
  never_marked jti cs = true →
  InMemoryRedis._data (store_of w) !! Py.blacklist_key jti = None →
  InMemoryRedis._data (store_of (run None REDIS_URL cs w))
    !! Py.blacklist_key jti = None.
Proof.
  revert w. induction cs as [|c cs IH]; intros w Hw Hcs Hk; [done|].
  cbn in Hcs. apply andb_prop in Hcs as [Hc Hcs].
  cbn. apply IH; [by apply step_in_memory | done |].
  rewrite store_of_step by done.
  destruct c as [y t|y| |d]; [| |done..].
  - cbn in Hc. apply negb_true_iff, bool_decide_eq_false in Hc.
    rewrite InMemoryRedisFacts.lookup_set_ne; [done|].
    intros Heq. by apply Hc, blacklist_key_inj.
  - by apply InMemoryRedisFacts.lookup_exists_None.
Qed.

End Fallback.

(** ** Marking and checking on the in-memory store *)

Section Blacklist.
Context {R : Type}.
Variable REDIS_URL : option string.

Local Abbreviation add_to_blacklist' := (add_to_blacklist (R:=R) None REDIS_URL).
Local Abbreviation is_blacklisted' := (is_blacklisted (R:=R) None REDIS_URL).
Local Abbreviation run' := (run (R:=R) None REDIS_URL).

Lemma elapse_0 (w : World R) : elapse 0 w = w.
Proof. destruct w. unfold elapse, with_clock. cbn. by rewrite Qcplus_0_r. Qed.

Lemma in_memory_elapse d (w : World R) : in_memory w → in_memory (elapse d w).
Proof. done. Qed.

(** The entry written by [add_to_blacklist]. *)
Lemma entry_after_mark (w : World R) x t :
  in_memory w →
  entry (add_to_blacklist' x t w).2 x
    = Some ("1", Some (clock w + Qc_of_Z t)%Qc).
Proof.
  intros Hw. rewrite add_to_blacklist_in_memory by done. cbn [fst snd].
  rewrite entry_store_of, store_of_settled.
  apply InMemoryRedisFacts.lookup_set.
Qed.

(** Checking a token [d] seconds after it was marked with ttl [t]: it is
    still revoked exactly when [d] has not gone past [t]. *)
Lemma check_after_mark (w : World R) x t d :
  in_memory w →
  (is_blacklisted' x (elapse d (add_to_blacklist' x t w).2)).1
    = inr (bool_decide (d ≤ Qc_of_Z t)%Qc).
Proof.
  intros Hw. rewrite add_to_blacklist_in_memory by done. cbn [fst snd].
  rewrite is_blacklisted_in_memory by apply in_memory_elapse, in_memory_settled.
  cbn [fst snd].
  rewrite store_of_elapse, store_of_settled.
  cbn [clock elapse with_clock settled].
  unfold InMemoryRedis.exists_.
  rewrite InMemoryRedisFacts.lookup_set. cbn [InMemoryRedis.expire_of].
  rewrite expired_shift.
  destruct (bool_decide_reflect (Qc_of_Z t < d)%Qc) as [Hlt|Hge]; cbn;
    f_equal; symmetry.
  - apply bool_decide_eq_false. by apply Qclt_not_le.
  - apply bool_decide_eq_true. by apply Qcnot_lt_le.
Qed.

Lemma check_right_after_mark (w : World R) x t :
  in_memory w →
  (is_blacklisted' x (add_to_blacklist' x t w).2).1
    = inr (bool_decide (0 ≤ t)%Z).
Proof.
  intros Hw. rewrite <-(elapse_0 (add_to_blacklist' x t w).2).
  rewrite check_after_mark by done. f_equal.
  apply bool_decide_ext. rewrite <-Z2Qc_inj_0. symmetry. apply Z2Qc_inj_le.
Qed.

(** What [is_blacklisted] answers and what it leaves behind, by the entry
    it finds. *)
Lemma check_result (w : World R) x :
  in_memory w →
  (is_blacklisted' x w).1
    = inr (bool_decide (is_Some (entry w x)) && negb (stale w x)).
Proof.
  intros Hw. rewrite is_blacklisted_in_memory by done. cbn [fst snd].
  unfold stale. rewrite entry_store_of. cbn [fst].
  unfold InMemoryRedis.exists_.
  destruct (InMemoryRedis._data (store_of w) !! Py.blacklist_key x)
    as [[v [e|]]|]; [|done..].
  by destruct (InMemoryRedis.expired (clock w) e).
Qed.

Lemma check_entry (w : World R) x :
  in_memory w →
  entry (is_blacklisted' x w).2 x = if stale w x then None else entry w x.
Proof.
  intros Hw. rewrite is_blacklisted_in_memory by done. cbn [fst snd].
  unfold stale. rewrite !entry_store_of, store_of_settled. cbn [snd].
  unfold InMemoryRedis.exists_.
  destruct (InMemoryRedis._data (store_of w) !! Py.blacklist_key x)
    as [[v [e|]]|] eqn:Hk; [|done..].
  destruct (InMemoryRedis.expired (clock w) e); [|done].
  cbn. apply lookup_delete_eq.
Qed.

Lemma check_clock (w : World R) x :
  in_memory w → clock (is_blacklisted' x w).2 = clock w.
Proof. intros Hw. by rewrite is_blacklisted_in_memory. Qed.

(** The frame of the two calls: entries of other tokens. *)
Lemma mark_entry_ne (w : World R) x y t :
  in_memory w → x ≠ y → entry (add_to_blacklist' x t w).2 y = entry w y.
Proof.
  intros Hw Hxy. rewrite add_to_blacklist_in_memory by done. cbn [fst snd].
  rewrite !entry_store_of, store_of_settled.
  apply InMemoryRedisFacts.lookup_set_ne.
  intros Heq. by apply Hxy, blacklist_key_inj.
Qed.

Lemma check_entry_ne (w : World R) x y :
  in_memory w → x ≠ y → entry (is_blacklisted' x w).2 y = entry w y.
Proof.
  intros Hw Hxy. rewrite is_blacklisted_in_memory by done. cbn [fst snd].
  rewrite !entry_store_of, store_of_settled.
  apply InMemoryRedisFacts.lookup_exists_ne.
  intros Heq. by apply Hxy, blacklist_key_inj.
Qed.

End Blacklist.

(** * The properties of the blacklist

    Unless said otherwise they are about the module as it is when
    [redis.asyncio] is missing, in any world that a run of the module reaches
    from the freshly imported state. *)

Section BlacklistProperties.
Context {R : Type}.
Variable REDIS_URL : option string.
Variable t0 : Qc.
Variable r0 : R.

Local Abbreviation add_to_blacklist' := (add_to_blacklist (R:=R) None REDIS_URL).
Local Abbreviation is_blacklisted' := (is_blacklisted (R:=R) None REDIS_URL).
Local Abbreviation reach cs := (run (R:=R) None REDIS_URL cs (boot t0 r0)).


(** C2.  A token that no call of the run has marked is not revoked:
    [is_blacklisted x] returns [False], whatever other tokens were marked
    or checked and however much time has passed. *)
Theorem never_marked_not_revoked cs x :
  never_marked x cs = true →
  (is_blacklisted' x (reach cs)).1 = inr false.
Proof.
  intros Hcs. pose proof (reachable_in_memory REDIS_URL cs t0 r0) as Hw.
  rewrite is_blacklisted_in_memory by done. cbn [fst].
  rewrite InMemoryRedisFacts.exists_missing; [done|].
  by apply never_marked_absent.
Qed.

(** C3, as the code has it.  [add_to_blacklist x 0] stores
    [expire = time.time()], and the entry counts as expired only once
    [time.time() > expire]: at the instant of the write [is_blacklisted x]
    returns [True], and [d] seconds later it returns [True] exactly when
    [d <= 0]. *)
Theorem zero_ttl_live_until_clock_moves cs x d :
  let w := (add_to_blacklist' x 0 (reach cs)).2 in
  entry w x = Some ("1", Some (clock w)) ∧
  (is_blacklisted' x w).1 = inr true ∧
  (is_blacklisted' x (elapse d w)).1 = inr (bool_decide (d ≤ 0)%Qc).
Proof.
  pose proof (reachable_in_memory REDIS_URL cs t0 r0) as Hw.
  cbn zeta. split; [|split].
  - rewrite entry_after_mark by done.
    rewrite add_to_blacklist_in_memory by done. cbn.
    by rewrite Z2Qc_inj_0, Qcplus_0_r.
  - by rewrite check_right_after_mark.
  - rewrite check_after_mark by done. by rewrite Z2Qc_inj_0.
Qed.



(** C7.  When the store holds no entry for [x] (or no store has been made
    yet), [is_blacklisted x] returns [False]; it does not raise. *)
Theorem missing_key_not_revoked cs x :
  entry (reach cs) x = None →
  (is_blacklisted' x (reach cs)).1 = inr false.
Proof.
  intros Hx. pose proof (reachable_in_memory REDIS_URL cs t0 r0) as Hw.
  rewrite check_result by done. by rewrite Hx.
Qed.


(** C10.  For distinct tokens [x] and [y]: the two keys differ, and
    neither [add_to_blacklist x t] nor [is_blacklisted x] changes the entry
    of [y] or what [is_blacklisted y] returns. *)
Theorem other_token_untouched cs x y t :
  x ≠ y →
  let w := reach cs in
  Py.blacklist_key x ≠ Py.blacklist_key y ∧
  entry (add_to_blacklist' x t w).2 y = entry w y ∧
  entry (is_blacklisted' x w).2 y = entry w y ∧
  (is_blacklisted' y (add_to_blacklist' x t w).2).1
    = (is_blacklisted' y w).1 ∧
  (is_blacklisted' y (is_blacklisted' x w).2).1
    = (is_blacklisted' y w).1.
Proof.
  intros Hxy. pose proof (reachable_in_memory REDIS_URL cs t0 r0) as Hw.
  cbn zeta.
  assert (in_memory (add_to_blacklist' x t (reach cs)).2) as Hw1.
  { rewrite add_to_blacklist_in_memory by done. apply in_memory_settled. }
  assert (in_memory (is_blacklisted' x (reach cs)).2) as Hw2.
  { rewrite is_blacklisted_in_memory by done. apply in_memory_settled. }
  split; [|split; [|split; [|split]]].
  - intros Heq. by apply Hxy, blacklist_key_inj.
  - by apply mark_entry_ne.
  - by apply check_entry_ne.
  - rewrite !check_result by done. unfold stale.
    rewrite mark_entry_ne by done.
    by rewrite add_to_blacklist_in_memory by done.
  - rewrite !check_result by done. unfold stale.
    rewrite check_entry_ne by done.
    by rewrite check_clock by done.
Qed.

End BlacklistProperties.

(** * The store factory *)

Section Factory.
Context {R : Type}.
Variable REDIS_URL : option string.

(** C8.  [get_redis] is idempotent.  A call that returns has built one
    store and cached it in [get_redis.redis]; after any further run of the
    module [get_redis] returns that same reference and leaves the world as
    it is, and the heap still holds that one object and no other.  This
    holds whichever store was selected. *)
Theorem get_redis_idempotent (redis_asyncio : option (RedisAsyncio R))
    t0 r0 cs h w1 cs' :
  get_redis redis_asyncio REDIS_URL
    (run redis_asyncio REDIS_URL cs (boot t0 r0)) = (inr h, w1) →
  let w2 := run redis_asyncio REDIS_URL cs' w1 in
  get_redis_redis w1 = Some h ∧
  length (heap w1) = 1 ∧
  get_redis redis_asyncio REDIS_URL w1 = (inr h, w1) ∧
  get_redis redis_asyncio REDIS_URL w2 = (inr h, w2) ∧
  length (heap w2) = 1.
Proof.
  intros Hget. cbn zeta.
  pose proof (run_shape redis_asyncio REDIS_URL cs _ (heap_shape_boot t0 r0))
    as Hw.
  pose proof (get_redis_shape redis_asyncio REDIS_URL _ Hw) as Hg.
  rewrite Hget in Hg. destruct Hg as (Hattr & Hw1 & _).
  pose proof (run_shape redis_asyncio REDIS_URL cs' _ Hw1) as Hw2.
  pose proof (run_keeps_attr redis_asyncio REDIS_URL cs' _ h Hw1 Hattr)
    as Hattr2.
  unfold heap_shape in Hw1, Hw2. rewrite Hattr in Hw1. rewrite Hattr2 in Hw2.
  destruct Hw1 as [_ Hlen1], Hw2 as [_ Hlen2].
  repeat split; [done..| | |done]; by apply get_redis_cached.
Qed.


End Factory.

(** * Concrete runs *)


(** C2 at ["xyz999"], after ["abc123"] was marked and checked. *)
Lemma never_marked_not_revoked_witness :
  never_marked "xyz999" [MarkRevoked "abc123" 3600; IsRevoked "abc123"] = true ∧
  (is_blacklisted None None "xyz999"
     (run None None [MarkRevoked "abc123" 3600; IsRevoked "abc123"] fresh)).1
    = inr false.
Proof.
  split; [reflexivity|].
  apply (never_marked_not_revoked (R:=()) None epoch ()
           [MarkRevoked "abc123" 3600; IsRevoked "abc123"] "xyz999").
  reflexivity.
Defined.

(** C3 as the specification states it fails: right after
    [add_to_blacklist "abc123" 0], with the clock where it was,
    [is_blacklisted "abc123"] returns [True], not [False]. *)
Lemma zero_ttl_counterexample :
  (is_blacklisted None None "abc123"
     (add_to_blacklist None None "abc123" 0 fresh).2).1 = inr true ∧
  (is_blacklisted None None "abc123"
     (add_to_blacklist None None "abc123" 0 fresh).2).1 ≠ inr false.
Proof.
  assert ((is_blacklisted None None "abc123"
            (add_to_blacklist None None "abc123" 0 fresh).2).1 = inr true) as H
    by (vm_compute; reflexivity).
  split; [exact H|]. rewrite H. discriminate.
Qed.


(** C7 at ["xyz999"], which the store has no entry for. *)
Lemma missing_key_not_revoked_witness :
  entry (run None None [MarkRevoked "abc123" 3600] fresh) "xyz999" = None ∧
  (is_blacklisted None None "xyz999"
     (run None None [MarkRevoked "abc123" 3600] fresh)).1 = inr false.
Proof.
  split; [reflexivity|].
  apply (missing_key_not_revoked (R:=()) None epoch ()
           [MarkRevoked "abc123" 3600] "xyz999").
  reflexivity.
Defined.

(** C8 at the first call of a process. *)
Lemma get_redis_idempotent_witness :
  get_redis None None (run None None [] fresh)
    = (inr 0, settled InMemoryRedis.__init__ fresh) ∧
  get_redis None None
    (run None None [MarkRevoked "abc123" 3600; GetStore]
       (settled InMemoryRedis.__init__ fresh))
    = (inr 0, run None None [MarkRevoked "abc123" 3600; GetStore]
                (settled InMemoryRedis.__init__ fresh)).
Proof.
  split; [reflexivity|].
  apply (get_redis_idempotent (R:=()) None None epoch () [] 0
           (settled InMemoryRedis.__init__ fresh)
           [MarkRevoked "abc123" 3600; GetStore]).
  reflexivity.
Defined.


(** C10 at ["abc123"] and ["xyz999"]. *)
Lemma other_token_untouched_witness :
  "abc123" ≠ "xyz999" ∧
  (is_blacklisted None None "xyz999"
     (add_to_blacklist None None "abc123" 3600 (run None None [] fresh)).2).1
    = (is_blacklisted None None "xyz999" (run None None [] fresh)).1.
Proof.
  split; [discriminate|].
  apply (other_token_untouched (R:=()) None epoch () [] "abc123" "xyz999" 3600).
  discriminate.
Defined.

(** * Further properties of the store *)

(** X1.  An entry written without [ex] never expires: [exists], called at
    any time at all, returns 1 and leaves the store as it is. *)
Theorem set_without_ex_never_expires now now' key value self :
  InMemoryRedis.exists_ now' key (InMemoryRedis.set now key value None self)
    = (1%Z, InMemoryRedis.set now key value None self).
Proof.
  apply InMemoryRedisFacts.exists_forever with value.
  apply InMemoryRedisFacts.lookup_set.
Qed.

(** X2.  Asking twice at the same time: the second [exists] returns what the
    first returned and changes nothing more, also after a purge. *)
Theorem exists_twice now key self :
  let first := InMemoryRedis.exists_ now key self in
  InMemoryRedis.exists_ now key first.2 = (first.1, first.2).
Proof.
  cbn zeta. unfold InMemoryRedis.exists_ at 2 3 4.
  destruct (InMemoryRedis._data self !! key) as [[v [e|]]|] eqn:Hk.
  - destruct (InMemoryRedis.expired now e) eqn:He; cbn [fst snd].
    + apply InMemoryRedisFacts.exists_missing. cbn. apply lookup_delete_eq.
    + by apply InMemoryRedisFacts.exists_live with v e.
  - by apply InMemoryRedisFacts.exists_forever with v.
  - by apply InMemoryRedisFacts.exists_missing.
Qed.

(** * Further properties of the blacklist *)

Section MoreBlacklist.
Context {R : Type}.
Variable REDIS_URL : option string.
Implicit Types w : World R.

Local Abbreviation add_to_blacklist' := (add_to_blacklist (R:=R) None REDIS_URL).
Local Abbreviation is_blacklisted' := (is_blacklisted (R:=R) None REDIS_URL).
Local Abbreviation run' := (run (R:=R) None REDIS_URL).
Local Abbreviation step' := (step (R:=R) None REDIS_URL).



Lemma remote_step w c : in_memory w → remote (step' w c) = remote w.
Proof.
  intros Hw. destruct c as [y t|y| |d]; cbn.
  - by rewrite add_to_blacklist_in_memory.
  - by rewrite is_blacklisted_in_memory.
  - by rewrite get_redis_in_memory.
  - done.
Qed.

Lemma entry_absent_run cs w x :
  in_memory w → never_marked x cs = true →
  entry w x = None → entry (run' cs w) x = None.
Proof.
  intros Hw Hcs Hx. rewrite entry_store_of in *.
  by apply never_marked_absent.
Qed.

(** X3.  A token found not revoked stays not revoked until it is marked
    again: after [is_blacklisted x] has returned [False], every later
    [is_blacklisted x] returns [False] as long as no call marks [x], whatever
    else is marked or checked and wherever the clock goes, backwards
    included (the expired entry was deleted, not hidden). *)
Theorem lapsed_stays_lapsed t0 (r0 : R) cs cs' x :
  let w := run' cs (boot t0 r0) in
  (is_blacklisted' x w).1 = inr false →
  never_marked x cs' = true →
  (is_blacklisted' x (run' cs' (is_blacklisted' x w).2)).1 = inr false.
Proof.
  cbn zeta. intros Hres Hcs'.
  pose proof (reachable_in_memory REDIS_URL cs t0 r0) as Hw.
  assert (in_memory (is_blacklisted' x (run' cs (boot t0 r0))).2) as Hw1.
  { rewrite is_blacklisted_in_memory by done. apply in_memory_settled. }
  assert (entry (is_blacklisted' x (run' cs (boot t0 r0))).2 x = None) as Hx.
  { rewrite check_entry by done. rewrite check_result in Hres by done.
    destruct (stale _ x); [done|].
    destruct (entry _ x) as [it|]; [|done].
    rewrite bool_decide_eq_true_2 in Hres by eauto. done. }
  rewrite check_result by by apply run_in_memory.
  by rewrite entry_absent_run.
Qed.



End MoreBlacklist.

Section MoreInvariants.
Context {R : Type}.
Variable REDIS_URL : option string.
Implicit Types w : World R.

Local Abbreviation add_to_blacklist' := (add_to_blacklist (R:=R) None REDIS_URL).
Local Abbreviation is_blacklisted' := (is_blacklisted (R:=R) None REDIS_URL).
Local Abbreviation run' := (run (R:=R) None REDIS_URL).

Lemma remote_run cs w : in_memory w → remote (run' cs w) = remote w.
Proof.
  revert w. induction cs as [|c cs IH]; intros w Hw; [done|].
  change (run' (c :: cs) w) with (run' cs (step None REDIS_URL w c)).
  rewrite IH by by apply step_in_memory. by apply remote_step.
Qed.

(** X5.  Without [redis.asyncio] the module never calls out: whatever is
    run, the state behind the library is the one the process started with. *)
Theorem fallback_never_calls_library t0 (r0 : R) cs :
  remote (run' cs (boot t0 r0)) = r0.
Proof. rewrite remote_run; [done|apply in_memory_boot]. Qed.

Lemma blacklist_items_run cs w :
  in_memory w →
  map_Forall blacklist_item (InMemoryRedis._data (store_of w)) →
  map_Forall blacklist_item (InMemoryRedis._data (store_of (run' cs w))).
Proof.
  revert w. induction cs as [|c cs IH]; intros w Hw HT; [done|].
  cbn. apply IH; [by apply step_in_memory|].
  rewrite store_of_step by done. destruct c as [x t|x| |d]; [| |done..].
  - cbn. apply map_Forall_insert_2; [|done].
    unfold blacklist_item. cbn. eauto.
  - unfold InMemoryRedis.exists_.
    destruct (_ !! Py.blacklist_key x) as [[v [e|]]|]; [|done..].
    destruct (InMemoryRedis.expired _ e); [|done].
    cbn. by apply map_Forall_delete.
Qed.

(** X7.  What the table holds.  In every world the module reaches, each
    entry of the table has the value ["1"], has an expiry (the module never
    writes an entry that lasts forever), and sits under a key
    ["blacklist:" ++ jti]. *)
Theorem table_holds_blacklist_items t0 (r0 : R) cs :
  map_Forall blacklist_item (default ∅ (table (run' cs (boot t0 r0)))).
Proof.
  apply (blacklist_items_run cs (boot t0 r0)); [apply in_memory_boot|].
  apply map_Forall_empty.
Qed.

(** X8.  Marking two distinct tokens at the same instant gives the same
    world in either order: neither write is lost or altered by the other. *)
Theorem marks_commute t0 (r0 : R) cs x y t u :
  x ≠ y →
  let w := run' cs (boot t0 r0) in
  run' [MarkRevoked x t; MarkRevoked y u] w
    = run' [MarkRevoked y u; MarkRevoked x t] w.
Proof.
  intros Hxy. cbn zeta.
  pose proof (reachable_in_memory REDIS_URL cs t0 r0) as Hw.
  cbn [run foldl step].
  rewrite (add_to_blacklist_in_memory _ (run' cs (boot t0 r0)) x) by done.
  rewrite (add_to_blacklist_in_memory _ (run' cs (boot t0 r0)) y) by done.
  cbn [snd].
  rewrite !add_to_blacklist_in_memory by apply in_memory_settled.
  cbn [snd]. rewrite !store_of_settled. unfold settled. cbn.
  do 3 f_equal. unfold InMemoryRedis.set. cbn. f_equal.
  apply insert_insert_ne.
  intros Heq. by apply Hxy, blacklist_key_inj.
Qed.

(** X9.  A check that answers [True] only reads: when [is_blacklisted x]
    returns [True] the world after the call is the world before it. *)
Theorem true_check_reads_only t0 (r0 : R) cs x :
  let w := run' cs (boot t0 r0) in
  (is_blacklisted' x w).1 = inr true →
  (is_blacklisted' x w).2 = w.
Proof.
  cbn zeta. pose proof (reachable_in_memory REDIS_URL cs t0 r0) as Hw.
  revert Hw. generalize (run' cs (boot t0 r0)). intros w Hw.
  rewrite is_blacklisted_in_memory by done. cbn [fst snd].
  destruct w as [c h [r|] rs]; unfold in_memory in Hw; cbn in Hw.
  - destruct Hw as [-> [[D] ->]].
    unfold store_of, table, settled, InMemoryRedis.exists_. cbn.
    destruct (D !! Py.blacklist_key x) as [[v [e|]]|]; [|done..].
    by destruct (InMemoryRedis.expired c e).
  - subst h. unfold store_of, table, InMemoryRedis.exists_. cbn.
    by rewrite lookup_empty.
Qed.

End MoreInvariants.

(** * The module with [redis.asyncio] *)

Section RealClient.
Context {R : Type}.
Variable lib : RedisAsyncio R.
Variable REDIS_URL : option string.
Implicit Types w : World R.

Lemma clients_only_get_redis w :
  clients_only w → clients_only (get_redis (Some lib) REDIS_URL w).2.
Proof.
  intros Hw. destruct (get_redis_redis w) as [r|] eqn:Hr.
  { by rewrite (get_redis_cached _ _ w r Hr). }
  unfold get_redis, hasattr_redis, getattr_redis, setattr_redis,
    _create_redis, foreign, alloc.
  unfold_M. rewrite Hr. unfold_M.
  destruct (from_url lib _ (remote w)) as [[e|c] r']; [done|].
  unfold clients_only. cbn. apply Forall_app. split; [done|].
  by apply Forall_singleton.
Qed.

Lemma clients_only_lookup w r :
  clients_only w → r < length (heap w) → ∃ c, heap w !! r = Some (Remote c).
Proof.
  intros Hw Hr. destruct (lookup_lt_is_Some_2 _ _ Hr) as [o Ho].
  pose proof (Forall_lookup_1 _ _ _ _ Hw Ho) as Hc.
  destruct o as [s|c]; [done|eauto].
Qed.

Lemma clients_only_redis_set w r key value ex :
  clients_only w → clients_only (redis_set r key value ex w).2.
Proof.
  intros Hw. unfold redis_set, foreign.
  destruct (heap w !! r) as [[s|c]|] eqn:Ho; [| |done].
  - by pose proof (Forall_lookup_1 _ _ _ _ Hw Ho).
  - by destruct (client_set c key value ex (remote w)).
Qed.

Lemma clients_only_redis_exists w r key :
  clients_only w → clients_only (redis_exists r key w).2.
Proof.
  intros Hw. unfold redis_exists, foreign.
  destruct (heap w !! r) as [[s|c]|] eqn:Ho; [| |done].
  - by pose proof (Forall_lookup_1 _ _ _ _ Hw Ho).
  - by destruct (client_exists c key (remote w)).
Qed.

Lemma clients_only_step w c :
  clients_only w → clients_only (step (Some lib) REDIS_URL w c).
Proof.
  intros Hw. pose proof (clients_only_get_redis w Hw) as Hg.
  destruct c as [x t|x| |d]; cbn.
  - unfold add_to_blacklist. unfold_M.
    destruct (get_redis _ _ w) as [[e|r] w']; [done|].
    by apply clients_only_redis_set.
  - unfold is_blacklisted. unfold_M.
    destruct (get_redis _ _ w) as [[e|r] w']; [done|].
    pose proof (clients_only_redis_exists w' r (Py.blacklist_key x) Hg) as H.
    by destruct (redis_exists r _ w') as [[?|?] ?].
  - done.
  - done.
Qed.

Lemma clients_only_run cs w :
  clients_only w → clients_only (run (Some lib) REDIS_URL cs w).
Proof.
  revert w. induction cs as [|c cs IH]; intros w Hw; [done|].
  cbn. apply IH. by apply clients_only_step.
Qed.

(** X6.  With [redis.asyncio] imported the module keeps no table of its
    own.  Once a client is cached, [add_to_blacklist x t] is the client's
    [set "blacklist:x" "1" ex=t] and [is_blacklisted x] is the client's
    [exists "blacklist:x"] turned into a [bool] (any count but 0 is
    [True]); what the client raises is raised to the caller; and the call
    changes nothing but the state behind the client. *)
Theorem real_client_is_used t0 (r0 : R) cs r x t :
  let w := run (Some lib) REDIS_URL cs (boot t0 r0) in
  get_redis_redis w = Some r →
  ∃ c, heap w = [Remote c] ∧ r = 0 ∧ table w = None ∧
    add_to_blacklist (Some lib) REDIS_URL x t w =
      (let '(res, rs) :=
         client_set c (Py.blacklist_key x) "1" (Some t) (remote w) in
       (res, with_remote rs w)) ∧
    is_blacklisted (Some lib) REDIS_URL x w =
      (let '(res, rs) := client_exists c (Py.blacklist_key x) (remote w) in
       (match res with
        | inl e => inl e
        | inr n => inr (Py.bool_of_int n)
        end, with_remote rs w)).
Proof.
  cbn zeta. intros Hr.
  pose proof (run_shape (Some lib) REDIS_URL cs _ (heap_shape_boot t0 r0))
    as Hshape.
  assert (clients_only (run (Some lib) REDIS_URL cs (boot t0 r0))) as Hcl.
  { apply clients_only_run. by apply Forall_nil. }
  revert Hr Hshape Hcl.
  generalize (run (Some lib) REDIS_URL cs (boot t0 r0)). intros w Hr Hshape Hcl.
  unfold heap_shape in Hshape. rewrite Hr in Hshape.
  destruct Hshape as [-> Hlen].
  destruct (clients_only_lookup w 0 Hcl) as [c Hc]; [lia|].
  assert (heap w = [Remote c]) as Hheap.
  { destruct (heap w) as [|o [|o' h]]; cbn in *; by simplify_eq. }
  exists c. split; [done|]. split; [done|]. split.
  { unfold table. rewrite Hr. cbn. by rewrite Hc. }
  split.
  - unfold add_to_blacklist. unfold_M.
    rewrite (get_redis_cached _ _ w 0 Hr). unfold redis_set. by rewrite Hc.
  - unfold is_blacklisted. unfold_M.
    rewrite (get_redis_cached _ _ w 0 Hr). unfold redis_exists. rewrite Hc.
    unfold foreign.
    by destruct (client_exists c _ (remote w)) as [[e|n] rs].
Qed.

End RealClient.

(** * More concrete runs *)

(** X3: ["abc123"] marked for one second and checked two seconds later;
    then the clock is set back by five seconds. *)
Lemma lapsed_stays_lapsed_witness :
  (is_blacklisted None None "abc123"
     (run None None [MarkRevoked "abc123" 1; Elapse (Qc_of_Z 2)] fresh)).1
    = inr false ∧
  never_marked "abc123" [Elapse (Qc_of_Z (-5)); IsRevoked "xyz999"] = true ∧
  (is_blacklisted None None "abc123"
     (run None None [Elapse (Qc_of_Z (-5)); IsRevoked "xyz999"]
        (is_blacklisted None None "abc123"
           (run None None [MarkRevoked "abc123" 1; Elapse (Qc_of_Z 2)]
              fresh)).2)).1
    = inr false.
Proof.
  split; [vm_compute; reflexivity|]. split; [reflexivity|].
  apply (lapsed_stays_lapsed (R:=()) None epoch ()
           [MarkRevoked "abc123" 1; Elapse (Qc_of_Z 2)]
           [Elapse (Qc_of_Z (-5)); IsRevoked "xyz999"] "abc123").
  - vm_compute; reflexivity.
  - reflexivity.
Defined.


(** X6: a process that has called [get_redis] once, with a server there. *)
Lemma real_client_is_used_witness :
  get_redis_redis (run (Some serving) None [GetStore] fresh) = Some 0 ∧
  ∃ c, heap (run (Some serving) None [GetStore] fresh) = [Remote c] ∧
       0 = 0 ∧
       table (run (Some serving) None [GetStore] fresh) = None ∧
       add_to_blacklist (Some serving) None "abc123" 3600
         (run (Some serving) None [GetStore] fresh) =
         (let '(res, rs) :=
            client_set c (Py.blacklist_key "abc123") "1" (Some 3600%Z)
              (remote (run (Some serving) None [GetStore] fresh)) in
          (res, with_remote rs (run (Some serving) None [GetStore] fresh))) ∧
       is_blacklisted (Some serving) None "abc123"
         (run (Some serving) None [GetStore] fresh) =
         (let '(res, rs) :=
            client_exists c (Py.blacklist_key "abc123")
              (remote (run (Some serving) None [GetStore] fresh)) in
          (match res with
           | inl e => inl e
           | inr n => inr (Py.bool_of_int n)
           end, with_remote rs (run (Some serving) None [GetStore] fresh))).
Proof.
  split; [reflexivity|].
  apply (real_client_is_used serving None epoch () [GetStore] 0 "abc123" 3600).
  reflexivity.
Defined.

(** X8 at ["abc123"] and ["xyz999"]. *)
Lemma marks_commute_witness :
  "abc123" ≠ "xyz999" ∧
  run None None [MarkRevoked "abc123" 3600; MarkRevoked "xyz999" 60]
    (run None None [] fresh)
    = run None None [MarkRevoked "xyz999" 60; MarkRevoked "abc123" 3600]
        (run None None [] fresh).
Proof.
  split; [discriminate|].
  apply (marks_commute (R:=()) None epoch () [] "abc123" "xyz999" 3600 60).
  discriminate.
Defined.

(** X9: checking ["abc123"] right after marking it. *)
Lemma true_check_reads_only_witness :
  (is_blacklisted None None "abc123"
     (run None None [MarkRevoked "abc123" 3600] fresh)).1 = inr true ∧
  (is_blacklisted None None "abc123"
     (run None None [MarkRevoked "abc123" 3600] fresh)).2
    = run None None [MarkRevoked "abc123" 3600] fresh.
Proof.
  split; [vm_compute; reflexivity|].
  apply (true_check_reads_only (R:=()) None epoch ()
           [MarkRevoked "abc123" 3600] "abc123").
  vm_compute; reflexivity.
Defined.
